(** * Input-capacitor sizing for a buck converter

    A shallow embedding of [buck_converter_calculator.py] and the
    properties of its three formulas.

    Number model.  The program computes on Python floats, which are IEEE
    754 binary64 numbers.  They are embedded as the standard library's
    [spec_float] at precision 53 and maximal exponent 1024, and [*], [/],
    [+], [-] are its [SFmul], [SFdiv], [SFadd], [SFsub]: round to nearest,
    ties to even, with signed zeros, infinities and NaN, overflow to an
    infinity and gradual underflow.  A decimal literal of the source is
    the binary64 number nearest to it.  On top of that sits what Python
    adds: [/] raises [ZeroDivisionError] for a divisor equal to zero, and
    [**] raises [OverflowError] when a finite base gives an infinite
    power.

    The power itself is computed by the C library's [pow], whose rounding
    is not fixed by any standard and is not the same on all platforms.  It
    is therefore a parameter, [libm_pow], of everything that squares; only
    what CPython decides before and after the call is modelled. *)

From Stdlib Require Import ZArith QArith Qpower Bool List String Lia Lqa.
From Stdlib Require Import SpecFloat.
Import ListNotations.

(** ** binary64 *)

Module Float.

Definition prec : Z := 53.
Definition emax : Z := 1024.

Definition t : Set := spec_float.

Definition mul : t -> t -> t := SFmul prec emax.
Definition div : t -> t -> t := SFdiv prec emax.
Definition add : t -> t -> t := SFadd prec emax.
Definition sub : t -> t -> t := SFsub prec emax.
Definition opp : t -> t := SFopp.

(** The binary64 number nearest to a rational, ties to even: how a
    decimal literal is read, and how a small integer becomes a float. *)
Definition of_Q (q : Q) : t :=
  let q := Qred q in
  match Qnum q with
  | Z0 => S754_zero false
  | Zpos n =>
      let '(m, e, l) :=
        SFdiv_core_binary prec emax (Zpos n) 0 (Zpos (Qden q)) 0 in
      binary_round_aux prec emax false m e l
  | Zneg n =>
      let '(m, e, l) :=
        SFdiv_core_binary prec emax (Zpos n) 0 (Zpos (Qden q)) 0 in
      binary_round_aux prec emax true m e l
  end.

(** The number a finite float stands for (0 for the others). *)
Definition to_Q (x : t) : Q :=
  match x with
  | S754_finite s m e =>
      ((if s then -1 else 1) * inject_Z (Zpos m) * 2 ^ e)%Q
  | _ => 0%Q
  end.

Definition is_zero (x : t) : bool :=
  match x with S754_zero _ => true | _ => false end.

Definition is_nan (x : t) : bool :=
  match x with S754_nan => true | _ => false end.

Definition is_inf (x : t) : bool :=
  match x with S754_infinity _ => true | _ => false end.

(** Neither an infinity nor NaN. *)
Definition is_finite (x : t) : bool :=
  match x with S754_zero _ | S754_finite _ _ _ => true | _ => false end.

(** The sign bit; [false] for NaN. *)
Definition signbit (x : t) : bool :=
  match x with
  | S754_zero s | S754_infinity s | S754_finite s _ _ => s
  | S754_nan => false
  end.

(** Comparison of the numbers, as [<], [<=], [==] do it: NaN compares
    with nothing, the two zeros are equal. *)
Definition compare (x y : t) : option comparison :=
  match x, y with
  | S754_nan, _ | _, S754_nan => None
  | S754_infinity s1, S754_infinity s2 =>
      Some (match s1, s2 with
            | true, true | false, false => Eq
            | true, false => Lt
            | false, true => Gt
            end)
  | S754_infinity s, _ => Some (if s then Lt else Gt)
  | _, S754_infinity s => Some (if s then Gt else Lt)
  | _, _ => Some (to_Q x ?= to_Q y)%Q
  end.

Definition ltb (x y : t) : bool :=
  match compare x y with Some Lt => true | _ => false end.

Definition leb (x y : t) : bool :=
  match compare x y with Some (Lt | Eq) => true | _ => false end.

Definition eqb (x y : t) : bool :=
  match compare x y with Some Eq => true | _ => false end.

End Float.

Declare Scope float_scope.
Delimit Scope float_scope with float.
Bind Scope float_scope with Float.t.

Notation "x * y" := (Float.mul x y) : float_scope.
Notation "x + y" := (Float.add x y) : float_scope.
Notation "x - y" := (Float.sub x y) : float_scope.
Notation "- x" := (Float.opp x) : float_scope.
Notation "x <? y" := (Float.ltb x y) : float_scope.
Notation "x <=? y" := (Float.leb x y) : float_scope.
Notation "x =? y" := (Float.eqb x y) : float_scope.

(** [f64 1.21] is the literal [1.21]. *)
Definition f64 (q : Q) : Float.t := Float.of_Q q.

Local Open Scope float_scope.

(** ** Python: exceptions, division, squaring *)

Module Py.

Inductive exn : Type :=
| ZeroDivisionError
| OverflowError
| SystemExit (code : Z).

Inductive result (A : Type) : Type :=
| Ok (a : A)
| Raise (e : exn).

Arguments Ok {A} a.
Arguments Raise {A} e.

Definition bind {A B : Type} (c : result A) (k : A -> result B) : result B :=
  match c with
  | Ok a => k a
  | Raise e => Raise e
  end.

(** [a / b] on floats: a divisor equal to zero (of either sign) raises,
    nothing else does. *)
Definition truediv (a b : Float.t) : result Float.t :=
  if Float.is_zero b then Raise ZeroDivisionError else Ok (Float.div a b).

(** [x ** 2] on a float, after CPython's [float_pow] with the exponent
    [2.0]: NaN, the infinities and the zeros are answered without the C
    library; a negative base is replaced by its absolute value (the
    exponent is even); a base equal to 1 gives 1; otherwise [pow] is
    called, and an infinite answer becomes [OverflowError].  An answer
    that underflowed, to zero or to a subnormal number, is returned as
    it is. *)
Definition pow_2 (libm_pow : Float.t -> Float.t -> Float.t) (x : Float.t)
    : result Float.t :=
  match x with
  | S754_nan => Ok S754_nan
  | S754_infinity _ => Ok (S754_infinity false)
  | S754_zero _ => Ok (S754_zero false)
  | S754_finite _ m e =>
      let iv := S754_finite false m e in
      if iv =? f64 1 then Ok (f64 1)
      else
        let ix := libm_pow iv (f64 2) in
        if Float.is_inf ix then Raise OverflowError else Ok ix
  end.

(** A computation that returned a value, as opposed to raising. *)
Definition returns {A : Type} (c : result A) : Prop := exists a, c = Ok a.

End Py.

Import Py.

Notation "x <- c ;; k" := (Py.bind c (fun x => k))
  (at level 61, c at next level, right associativity).

(** A C library whose [pow] rounds correctly: for the exponent 2, the only
    one the program uses, its answer is the rounded product.  It serves
    where a run has to be computed; the theorems hold for every
    [libm_pow]. *)
Definition correctly_rounded_pow (x y : Float.t) : Float.t := x * x.

(** ** pint: quantities of capacitance

    [pint] is a third-party package.  Of its registry only the two units
    the program names are kept, and of [Quantity.to] only the scale
    between them: one farad is [1e6] microfarads. *)

Module ureg.

Inductive Unit : Type := F | uF.

Record Quantity : Type :=
  mkQuantity { magnitude : Float.t; units : Unit }.

(** [x * ureg.u]: tags a bare number, the magnitude is untouched. *)
Definition mul_unit (x : Float.t) (u : Unit) : Quantity := mkQuantity x u.

(** [q.to(u)] *)
Definition to (q : Quantity) (u : Unit) : Quantity :=
  match units q, u with
  | F, uF => mkQuantity (magnitude q * f64 1e6) uF
  | uF, F => mkQuantity (Float.div (magnitude q) (f64 1e6)) F
  | F, F | uF, uF => q
  end.

End ureg.

(** ** Defaults *)

Definition default_input_voltage : Float.t := f64 24.0.
Definition default_output_voltage : Float.t := f64 5.0.
Definition default_output_current : Float.t := f64 2.0.
Definition default_switching_frequency : Float.t := f64 500e3.
Definition default_efficiency : Float.t := f64 0.9.
Definition default_v_pp_max : Float.t := f64 75e-3.
Definition default_i_out_tr_max : Float.t := f64 2.
Definition default_v_out_tr_max_allowed : Float.t := f64 0.1.

(** ** The three formulas *)

Definition get_duty_cycle (v_in v_out efficiency : Float.t)
    : result Float.t :=
  truediv v_out (v_in * efficiency).

Definition get_min_input_capacitance_for_ripple_reduction
    (v_in v_out i_out efficiency f_sw V_pp_max : Float.t)
    : result ureg.Quantity :=
  duty_cycle <- get_duty_cycle v_in v_out efficiency ;;
  c_min <- truediv (i_out * duty_cycle * (f64 1 - duty_cycle)
                      * f64 1000 * f64 1000)
                   (f_sw * V_pp_max) ;;
  Ok (ureg.mul_unit c_min ureg.uF).

Section Bulk.

Variable libm_pow : Float.t -> Float.t -> Float.t.

(** The operands of [1.21 * (i ** 2) * (l * 1e-9) / (v ** 2)] are
    evaluated left to right: the square of the current before the square
    of the voltage, both before the division. *)
Definition get_min_input_bulk_capacitance
    (v_in v_out efficiency max_output_transient_current
     max_allowed_voltage_change input_filter_inductance : Float.t)
    : result ureg.Quantity :=
  d <- truediv v_out (v_in * efficiency) ;;
  let input_current_transient := d * max_output_transient_current in
  let input_inductance := f64 50 + input_filter_inductance in
  i2 <- pow_2 libm_pow input_current_transient ;;
  v2 <- pow_2 libm_pow max_allowed_voltage_change ;;
  c_min <- truediv (f64 1.21 * i2 * (input_inductance * f64 1e-9)) v2 ;;
  let c_min := ureg.mul_unit c_min ureg.F in
  Ok (ureg.to c_min ureg.uF).

End Bulk.

(** ** Command line

    [argparse] is the standard library's.  How it splits the command line
    and decides which option a token names (exact flags, abbreviations,
    [--flag=value]) and how [type=float] reads a number is its own
    business and is not modelled: the model starts from what that phase
    hands on, which is either a usage error (exit status 2) or the list of
    (destination, value) pairs the command line gave, in order.  What is
    modelled is what [main] writes: the nine [add_argument] lines with
    their [default=], and the namespace they produce. *)

Module Dest.

Inductive t : Type :=
| v_in | v_out | i_out | f_sw | efficiency | v_pp_max
| i_out_tr_max | v_out_tr_max_allowed | input_inductor.

Definition eqb (x y : t) : bool :=
  match x, y with
  | v_in, v_in | v_out, v_out | i_out, i_out | f_sw, f_sw
  | efficiency, efficiency | v_pp_max, v_pp_max
  | i_out_tr_max, i_out_tr_max
  | v_out_tr_max_allowed, v_out_tr_max_allowed
  | input_inductor, input_inductor => true
  | _, _ => false
  end.

(** The option string of each [add_argument] line. *)
Definition flag (d : t) : string :=
  match d with
  | v_in => "--v-in"
  | v_out => "--v-out"
  | i_out => "--i-out"
  | f_sw => "--f-sw"
  | efficiency => "--efficiency"
  | v_pp_max => "--v-pp-max"
  | i_out_tr_max => "--i-out-tr-max"
  | v_out_tr_max_allowed => "--v-out-tr-max-allowed"
  | input_inductor => "--input-inductor"
  end.

End Dest.

Module Namespace.

Record t : Type := mk {
  v_in : Float.t;
  v_out : Float.t;
  i_out : Float.t;
  f_sw : Float.t;
  efficiency : Float.t;
  v_pp_max : Float.t;
  i_out_tr_max : Float.t;
  v_out_tr_max_allowed : Float.t;
  input_inductor : Float.t
}.

Definition getattr (ns : t) (d : Dest.t) : Float.t :=
  match d with
  | Dest.v_in => v_in ns
  | Dest.v_out => v_out ns
  | Dest.i_out => i_out ns
  | Dest.f_sw => f_sw ns
  | Dest.efficiency => efficiency ns
  | Dest.v_pp_max => v_pp_max ns
  | Dest.i_out_tr_max => i_out_tr_max ns
  | Dest.v_out_tr_max_allowed => v_out_tr_max_allowed ns
  | Dest.input_inductor => input_inductor ns
  end.

Definition setattr (ns : t) (d : Dest.t) (x : Float.t) : t :=
  let '(mk a b c e f g h i j) := ns in
  match d with
  | Dest.v_in => mk x b c e f g h i j
  | Dest.v_out => mk a x c e f g h i j
  | Dest.i_out => mk a b x e f g h i j
  | Dest.f_sw => mk a b c x f g h i j
  | Dest.efficiency => mk a b c e x g h i j
  | Dest.v_pp_max => mk a b c e f x h i j
  | Dest.i_out_tr_max => mk a b c e f g x i j
  | Dest.v_out_tr_max_allowed => mk a b c e f g h x j
  | Dest.input_inductor => mk a b c e f g h i x
  end.

End Namespace.

(** The [default=] of each of the nine [add_argument] lines. *)
Definition add_argument_default (d : Dest.t) : Float.t :=
  match d with
  | Dest.v_in => default_input_voltage
  | Dest.v_out => default_output_voltage
  | Dest.i_out => default_output_current
  | Dest.f_sw => default_switching_frequency
  | Dest.efficiency => default_efficiency
  | Dest.v_pp_max => default_v_pp_max
  | Dest.i_out_tr_max => default_i_out_tr_max
  | Dest.v_out_tr_max_allowed => default_v_out_tr_max_allowed
  | Dest.input_inductor => default_v_out_tr_max_allowed
  end.

(** The namespace before any option of the command line is stored. *)
Definition parser_defaults : Namespace.t :=
  Namespace.mk
    (add_argument_default Dest.v_in)
    (add_argument_default Dest.v_out)
    (add_argument_default Dest.i_out)
    (add_argument_default Dest.f_sw)
    (add_argument_default Dest.efficiency)
    (add_argument_default Dest.v_pp_max)
    (add_argument_default Dest.i_out_tr_max)
    (add_argument_default Dest.v_out_tr_max_allowed)
    (add_argument_default Dest.input_inductor).

(** Options are stored left to right: one given twice keeps its last
    value, one not given keeps its default. *)
Fixpoint store_all (ns : Namespace.t) (given : list (Dest.t * Float.t))
    : Namespace.t :=
  match given with
  | [] => ns
  | (d, x) :: rest => store_all (Namespace.setattr ns d x) rest
  end.

(** [None]: the command line was rejected. *)
Definition parse_args (argv : option (list (Dest.t * Float.t)))
    : result Namespace.t :=
  match argv with
  | None => Raise (SystemExit 2)
  | Some given => Ok (store_all parser_defaults given)
  end.

Section Main.

Variable libm_pow : Float.t -> Float.t -> Float.t.

(** [main] up to the three values it prints (the number formatting of the
    f-strings is not modelled). *)
Definition main (argv : option (list (Dest.t * Float.t)))
    : result (Float.t * ureg.Quantity * ureg.Quantity) :=
  args <- parse_args argv ;;
  duty_cycle <-
    get_duty_cycle (Namespace.v_in args) (Namespace.v_out args)
                   (Namespace.efficiency args) ;;
  input_ceramic_c_min <-
    get_min_input_capacitance_for_ripple_reduction
      (Namespace.v_in args) (Namespace.v_out args) (Namespace.i_out args)
      (Namespace.efficiency args) (Namespace.f_sw args)
      (Namespace.v_pp_max args) ;;
  input_bulk_c_min <-
    get_min_input_bulk_capacitance libm_pow
      (Namespace.v_in args) (Namespace.v_out args)
      (Namespace.efficiency args) (Namespace.i_out_tr_max args)
      (Namespace.v_out_tr_max_allowed args)
      (Namespace.input_inductor args) ;;
  Ok (duty_cycle, input_ceramic_c_min, input_bulk_c_min).

(** ** The factored first step

    The specification allows the first statement of the bulk estimator to
    be written as a call: the duty cycle from [get_duty_cycle], times the
    transient.  This is that variant, everything after the first step as
    in the source. *)
Definition get_min_input_bulk_capacitance_factored
    (v_in v_out efficiency i_out_tr_max
     v_out_tr_max_allowed input_inductance_nH : Float.t)
    : result ureg.Quantity :=
  duty <- get_duty_cycle v_in v_out efficiency ;;
  let i_transient := duty * i_out_tr_max in
  let l_eff_nH := f64 50 + input_inductance_nH in
  i2 <- pow_2 libm_pow i_transient ;;
  v2 <- pow_2 libm_pow v_out_tr_max_allowed ;;
  c_min_F <- truediv (f64 1.21 * i2 * (l_eff_nH * f64 1e-9)) v2 ;;
  Ok (ureg.to (ureg.mul_unit c_min_F ureg.F) ureg.uF).

End Main.

(** The value the command line gave last for destination [d], if it gave
    one.  Not in the source: the yardstick [store_all] is measured
    against. *)
Fixpoint last_given (d : Dest.t) (given : list (Dest.t * Float.t))
    : option Float.t :=
  match given with
  | [] => None
  | (d', x) :: rest =>
      match last_given d rest with
      | Some y => Some y
      | None => if Dest.eqb d d' then Some x else None
      end
  end.

(** One factor is a zero and the other is finite: the product is a zero.
    (With an infinite or NaN factor the product is NaN.) *)
Definition zero_factor (x y : Float.t) : bool :=
  (Float.is_zero x && Float.is_finite y
   || Float.is_finite x && Float.is_zero y)%bool.

(** A float that is NaN or carries the sign [s]: with [s = true] a
    negative number, minus infinity or minus zero. *)
Definition nan_or_signed (s : bool) (x : Float.t) : Prop :=
  match x with
  | S754_nan => True
  | S754_zero s' | S754_infinity s' | S754_finite s' _ _ => s' = s
  end.

(** ** Sample runs

    The default command line, with a correctly rounding [pow]: the duty
    cycle is 0x1.da12f684bda12p-3 (0.23148148148148145), the ceramic
    capacitance 0x1.2f9cbcb174b44p+3 uF (9.487882944673068) and the bulk
    capacitance 0x1.4ca021b641511p+0 uF (1.2993184156378599). *)

Example main_defaults :
  main correctly_rounded_pow (Some [])
  = Ok (S754_finite false 8339999309945362 (-55),
        ureg.mkQuantity (S754_finite false 5341203261770564 (-49)) ureg.uF,
        ureg.mkQuantity (S754_finite false 5851609932502289 (-52)) ureg.uF).
Proof. vm_compute. reflexivity. Qed.

Example duty_cycle_unity :
  get_duty_cycle (f64 12) (f64 12) (f64 1.0) = Ok (f64 1).
Proof. vm_compute. reflexivity. Qed.

Example literals :
  f64 0.1 = S754_finite false 7205759403792794 (-56)
  /\ f64 1.21 = S754_finite false 5449355549118300 (-52)
  /\ f64 1e-9 = S754_finite false 4835703278458517 (-82)
  /\ f64 1 = S754_finite false 4503599627370496 (-52)
  /\ f64 5e-324 = S754_finite false 1 (-1074)
  /\ f64 1e309 = S754_infinity false.
Proof. vm_compute. repeat split. Qed.

(** ** Division *)

Section Division.

Variables a b : Float.t.

Lemma truediv_Ok : Float.is_zero b = false -> truediv a b = Ok (Float.div a b).
Proof. intro H. unfold truediv. now rewrite H. Qed.

Lemma truediv_Raise :
  Float.is_zero b = true -> truediv a b = Raise ZeroDivisionError.
Proof. intro H. unfold truediv. now rewrite H. Qed.

Lemma truediv_Ok_inv (r : Float.t) :
  truediv a b = Ok r -> Float.is_zero b = false /\ r = Float.div a b.
Proof.
  unfold truediv. destruct (Float.is_zero b); intro H; [discriminate|].
  split; [reflexivity | congruence].
Qed.

Lemma truediv_Raise_inv (e : exn) :
  truediv a b = Raise e -> e = ZeroDivisionError /\ Float.is_zero b = true.
Proof.
  unfold truediv. destruct (Float.is_zero b); intro H; [|discriminate].
  split; [congruence | reflexivity].
Qed.

End Division.

Lemma mul_zero_factor (x y : Float.t) :
  zero_factor x y = true -> Float.is_zero (x * y) = true.
Proof. destruct x, y; cbn; intro H; try reflexivity; discriminate H. Qed.

(** ** The formulas as computed *)

(** C1 as it is worded promises a returned quotient for all positive
    [v_in] and [efficiency].  Two positive factors whose product
    underflows to zero make the division raise. *)
Lemma duty_cycle_underflow_raises :
  (f64 0 <? f64 1e-200) = true
  /\ (f64 0 <=? f64 5) = true
  /\ get_duty_cycle (f64 1e-200) (f64 5) (f64 1e-200)
     = Raise ZeroDivisionError.
Proof. vm_compute. repeat split. Qed.

(** C1, amended: whenever the binary64 product [v_in * efficiency] is not
    zero, [get_duty_cycle] returns exactly the binary64 quotient
    [v_out / (v_in * efficiency)]. *)
Theorem get_duty_cycle_formula (v_in v_out efficiency : Float.t) :
  Float.is_zero (v_in * efficiency) = false ->
  get_duty_cycle v_in v_out efficiency
  = Ok (Float.div v_out (v_in * efficiency)).
Proof. intro H. unfold get_duty_cycle. now apply truediv_Ok. Qed.

Lemma get_duty_cycle_formula_witness :
  get_duty_cycle (f64 24) (f64 5) (f64 0.9)
  = Ok (Float.div (f64 5) (f64 24 * f64 0.9)).
Proof.
  apply (get_duty_cycle_formula (f64 24) (f64 5) (f64 0.9)).
  vm_compute. reflexivity.
Defined.

(** C2 as it is worded promises a return on the whole positive domain and
    a factor [1e6].  With [f_sw = V_pp_max = 1e-200] the denominator
    underflows to zero and the division raises; and the source's two
    multiplications by 1000 do not round like one multiplication by
    [1e6]: at [(12, 3.3, 1, 0.9, 1, 1)] the returned magnitude is one unit
    in the last place above the value of the claimed expression. *)
Lemma min_ceramic_capacitance_underflow_and_rounding :
  (f64 0 <? f64 1e-200) = true
  /\ get_min_input_capacitance_for_ripple_reduction
       (f64 24) (f64 5) (f64 2) (f64 0.9) (f64 1e-200) (f64 1e-200)
     = Raise ZeroDivisionError
  /\ (let duty := Float.div (f64 3.3) (f64 12 * f64 0.9) in
      get_min_input_capacitance_for_ripple_reduction
        (f64 12) (f64 3.3) (f64 1) (f64 0.9) (f64 1) (f64 1)
      = Ok (ureg.mkQuantity
              (S754_finite false 7290839545679012 (-35)) ureg.uF)
      /\ Float.div (f64 1 * duty * (f64 1 - duty) * f64 1e6)
                   (f64 1 * f64 1)
         = S754_finite false 7290839545679011 (-35)).
Proof. vm_compute. repeat split. Qed.

(** C2, amended: whenever neither [v_in * efficiency] nor
    [f_sw * V_pp_max] is zero as a binary64 product, the ceramic estimator
    returns [(i_out * duty * (1 - duty) * 1000 * 1000) / (f_sw * V_pp_max)]
    evaluated left to right in binary64, [duty] being what
    [get_duty_cycle] returns, and the number is tagged as microfarads as
    it is: the result is [c_min * ureg.uF], no conversion is applied. *)
Theorem min_ceramic_capacitance_formula
    (v_in v_out i_out efficiency f_sw V_pp_max : Float.t) :
  Float.is_zero (v_in * efficiency) = false ->
  Float.is_zero (f_sw * V_pp_max) = false ->
  exists duty,
    get_duty_cycle v_in v_out efficiency = Ok duty
    /\ get_min_input_capacitance_for_ripple_reduction
         v_in v_out i_out efficiency f_sw V_pp_max
       = Ok (ureg.mkQuantity
               (Float.div (i_out * duty * (f64 1 - duty)
                             * f64 1000 * f64 1000)
                          (f_sw * V_pp_max))
               ureg.uF).
Proof.
  intros Hk Hfv. exists (Float.div v_out (v_in * efficiency)).
  unfold get_min_input_capacitance_for_ripple_reduction, get_duty_cycle.
  rewrite (truediv_Ok _ _ Hk). cbn [bind].
  rewrite (truediv_Ok _ _ Hfv). split; reflexivity.
Qed.

Lemma min_ceramic_capacitance_formula_witness :
  exists duty,
    get_duty_cycle (f64 24) (f64 5) (f64 0.9) = Ok duty
    /\ get_min_input_capacitance_for_ripple_reduction
         (f64 24) (f64 5) (f64 2) (f64 0.9) (f64 500e3) (f64 75e-3)
       = Ok (ureg.mkQuantity
               (Float.div (f64 2 * duty * (f64 1 - duty)
                             * f64 1000 * f64 1000)
                          (f64 500e3 * f64 75e-3))
               ureg.uF).
Proof.
  apply (min_ceramic_capacitance_formula
           (f64 24) (f64 5) (f64 2) (f64 0.9) (f64 500e3) (f64 75e-3));
    vm_compute; reflexivity.
Defined.

(** C3 as it is worded promises a return for all positive [v_in] and
    [efficiency] and non-zero allowed voltage change.  Inside that domain
    the first division raises when [v_in * efficiency] underflows, a
    transient current of [1e200] makes the square overflow, and an allowed
    voltage change of [1e-200] has a square of zero to divide by. *)
Lemma min_bulk_capacitance_overflow_and_underflow :
  get_min_input_bulk_capacitance correctly_rounded_pow
    (f64 1e-200) (f64 5) (f64 1e-200) (f64 2) (f64 0.1) (f64 0)
  = Raise ZeroDivisionError
  /\ get_min_input_bulk_capacitance correctly_rounded_pow
       (f64 1) (f64 1e200) (f64 1) (f64 1) (f64 1) (f64 0)
     = Raise OverflowError
  /\ get_min_input_bulk_capacitance correctly_rounded_pow
       (f64 24) (f64 5) (f64 0.9) (f64 2) (f64 1e-200) (f64 0)
     = Raise ZeroDivisionError.
Proof. vm_compute. repeat split. Qed.

Section BulkFormula.

Variable libm_pow : Float.t -> Float.t -> Float.t.

(** C3, amended: whenever [v_in * efficiency] is not zero, neither square
    overflows and the square of the allowed voltage change is not zero,
    the bulk estimator computes the transient current
    [(v_out / (v_in * efficiency)) * i_out_tr_max], adds 50 nH to the
    filter inductance, evaluates
    [1.21 * i_transient ** 2 * (l_eff_nH * 1e-9)
     / v_out_tr_max_allowed ** 2] left to right in binary64 as farads and
    returns it converted to microfarads, that is, times [1e6]. *)
Theorem min_bulk_capacitance_formula
    (v_in v_out efficiency i_out_tr_max
     v_out_tr_max_allowed input_inductance_nH i2 v2 : Float.t) :
  Float.is_zero (v_in * efficiency) = false ->
  let i_transient := Float.div v_out (v_in * efficiency) * i_out_tr_max in
  let l_eff_nH := f64 50 + input_inductance_nH in
  pow_2 libm_pow i_transient = Ok i2 ->
  pow_2 libm_pow v_out_tr_max_allowed = Ok v2 ->
  Float.is_zero v2 = false ->
  let c_min_F := Float.div (f64 1.21 * i2 * (l_eff_nH * f64 1e-9)) v2 in
  get_min_input_bulk_capacitance libm_pow
    v_in v_out efficiency i_out_tr_max v_out_tr_max_allowed
    input_inductance_nH
  = Ok (ureg.to (ureg.mkQuantity c_min_F ureg.F) ureg.uF)
  /\ ureg.to (ureg.mkQuantity c_min_F ureg.F) ureg.uF
     = ureg.mkQuantity (c_min_F * f64 1e6) ureg.uF.
Proof.
  intros Hk i_transient l_eff_nH Hi2 Hv2 Hz c_min_F.
  split; [|reflexivity].
  unfold get_min_input_bulk_capacitance.
  rewrite (truediv_Ok _ _ Hk). cbn [bind].
  fold i_transient. rewrite Hi2. cbn [bind]. rewrite Hv2. cbn [bind].
  rewrite (truediv_Ok _ _ Hz). reflexivity.
Qed.

(** C4: the transient current that the bulk estimator computes in place
    is the value returned by [get_duty_cycle] times [i_out_tr_max]
    (and raises what [get_duty_cycle] raises), and the estimator with its
    first step replaced by that call returns the same result for every
    argument. *)
Theorem inline_transient_is_duty_cycle_call
    (v_in v_out efficiency i_out_tr_max : Float.t) :
  (forall duty,
      get_duty_cycle v_in v_out efficiency = Ok duty ->
      (d <- truediv v_out (v_in * efficiency) ;; Ok (d * i_out_tr_max))
      = Ok (duty * i_out_tr_max))
  /\ (forall e,
         get_duty_cycle v_in v_out efficiency = Raise e ->
         (d <- truediv v_out (v_in * efficiency) ;; Ok (d * i_out_tr_max))
         = Raise e)
  /\ forall v_out_tr_max_allowed input_inductance_nH,
       get_min_input_bulk_capacitance libm_pow
         v_in v_out efficiency i_out_tr_max v_out_tr_max_allowed
         input_inductance_nH
       = get_min_input_bulk_capacitance_factored libm_pow
           v_in v_out efficiency i_out_tr_max v_out_tr_max_allowed
           input_inductance_nH.
Proof.
  unfold get_duty_cycle. repeat split.
  - intros duty H. now rewrite H.
  - intros e H. now rewrite H.
Qed.

End BulkFormula.

Lemma min_bulk_capacitance_formula_witness :
  let d := Float.div (f64 5) (f64 24 * f64 0.9) in
  get_min_input_bulk_capacitance correctly_rounded_pow
    (f64 24) (f64 5) (f64 0.9) (f64 2) (f64 0.1) (f64 0.1)
  = Ok (ureg.mkQuantity
          (Float.div (f64 1.21 * (d * f64 2 * (d * f64 2))
                        * ((f64 50 + f64 0.1) * f64 1e-9))
                     (f64 0.1 * f64 0.1)
             * f64 1e6)
          ureg.uF).
Proof.
  intro d.
  apply (min_bulk_capacitance_formula correctly_rounded_pow
           (f64 24) (f64 5) (f64 0.9) (f64 2) (f64 0.1) (f64 0.1)
           (d * f64 2 * (d * f64 2)) (f64 0.1 * f64 0.1));
    vm_compute; reflexivity.
Defined.

(** ** The command line's defaults *)

Lemma setattr_other (ns : Namespace.t) (d d' : Dest.t) (x : Float.t) :
  Dest.eqb d' d = false ->
  Namespace.getattr (Namespace.setattr ns d x) d' = Namespace.getattr ns d'.
Proof. destruct ns, d, d'; intro H; try reflexivity; discriminate H. Qed.

Lemma setattr_same (ns : Namespace.t) (d d' : Dest.t) (x : Float.t) :
  Dest.eqb d' d = true ->
  Namespace.getattr (Namespace.setattr ns d x) d' = x.
Proof. destruct ns, d, d'; intro H; try reflexivity; discriminate H. Qed.

Lemma store_all_not_given (d : Dest.t) (given : list (Dest.t * Float.t)) :
  forallb (fun dx => negb (Dest.eqb d (fst dx))) given = true ->
  forall ns,
    Namespace.getattr (store_all ns given) d = Namespace.getattr ns d.
Proof.
  induction given as [|[d' x] rest IH]; cbn [store_all forallb fst];
    intros H ns; [reflexivity|].
  apply andb_true_iff in H. destruct H as [Hd Hrest].
  rewrite (IH Hrest). apply setattr_other. now apply negb_true_iff.
Qed.

Lemma store_all_getattr (d : Dest.t) (given : list (Dest.t * Float.t)) :
  forall ns,
    Namespace.getattr (store_all ns given) d
    = match last_given d given with
      | Some x => x
      | None => Namespace.getattr ns d
      end.
Proof.
  induction given as [|[d' x] rest IH]; cbn [store_all last_given];
    intro ns; [reflexivity|].
  rewrite IH. destruct (last_given d rest) as [y|]; [reflexivity|].
  destruct (Dest.eqb d d') eqn:E.
  - now apply setattr_same.
  - now apply setattr_other.
Qed.

(** C5: the default of [--input-inductor] is the constant
    [default_v_out_tr_max_allowed], whose value is 0.1: whenever the
    command line does not give the option, that is the inductance [main]
    reads.  The inductance has no constant of its own among the defaults:
    its [add_argument] line names the default of
    [--v-out-tr-max-allowed]. *)
Theorem input_inductor_default
    (given : list (Dest.t * Float.t)) (args : Namespace.t) :
  forallb (fun dx => negb (Dest.eqb Dest.input_inductor (fst dx))) given
    = true ->
  parse_args (Some given) = Ok args ->
  Namespace.input_inductor args = default_v_out_tr_max_allowed
  /\ default_v_out_tr_max_allowed = f64 0.1
  /\ add_argument_default Dest.input_inductor
     = add_argument_default Dest.v_out_tr_max_allowed.
Proof.
  intros Hnot H. repeat split.
  injection H as <-.
  apply (store_all_not_given Dest.input_inductor given Hnot parser_defaults).
Qed.

Lemma input_inductor_default_witness :
  let given := [(Dest.v_in, f64 12); (Dest.f_sw, f64 250e3)] in
  let args :=
    Namespace.mk (f64 12) (f64 5.0) (f64 2.0) (f64 250e3) (f64 0.9)
                 (f64 75e-3) (f64 2) (f64 0.1) (f64 0.1) in
  parse_args (Some given) = Ok args
  /\ Namespace.input_inductor args = default_v_out_tr_max_allowed
  /\ default_v_out_tr_max_allowed = f64 0.1
  /\ add_argument_default Dest.input_inductor
     = add_argument_default Dest.v_out_tr_max_allowed.
Proof.
  intros given args. split; [reflexivity|].
  apply (input_inductor_default given args); reflexivity.
Defined.

(** X10: for an accepted command line, every option reads as the value
    the command line gave it last, and an option the command line did not
    give reads as the [default=] of its [add_argument] line; storing one
    option never disturbs another. *)
Theorem parse_args_getattr (given : list (Dest.t * Float.t)) (d : Dest.t) :
  exists args,
    parse_args (Some given) = Ok args
    /\ Namespace.getattr args d
       = match last_given d given with
         | Some x => x
         | None => add_argument_default d
         end.
Proof.
  eexists. split; [reflexivity|].
  rewrite store_all_getattr. now destruct d.
Qed.

(** ** Signs

    The sign of a product or a quotient is the exclusive or of the signs
    of its operands, whatever the rounding does. *)

Lemma binary_round_aux_signed (s : bool) (m e : Z) (l : location) :
  nan_or_signed s (binary_round_aux Float.prec Float.emax s m e l).
Proof.
  unfold binary_round_aux.
  destruct (shr_fexp _ _ m e l) as [mrs' e'].
  destruct (shr_fexp _ _ _ e' loc_Exact) as [mrs'' e''].
  destruct (shr_m mrs'') as [|p|p]; cbn; [reflexivity | | exact I].
  destruct (e'' <=? _)%Z; reflexivity.
Qed.

Lemma binary_round_aux_opp (s : bool) (m e : Z) (l : location) :
  binary_round_aux Float.prec Float.emax (negb s) m e l
  = - binary_round_aux Float.prec Float.emax s m e l.
Proof.
  unfold binary_round_aux.
  destruct (shr_fexp _ _ m e l) as [mrs' e'].
  destruct (shr_fexp _ _ _ e' loc_Exact) as [mrs'' e''].
  destruct (shr_m mrs'') as [|p|p]; cbn; try reflexivity.
  destruct (e'' <=? _)%Z; reflexivity.
Qed.

Lemma negb_xorb_l' (a b : bool) : xorb (negb a) b = negb (xorb a b).
Proof. now destruct a, b. Qed.

Lemma negb_xorb_r' (a b : bool) : xorb a (negb b) = negb (xorb a b).
Proof. now destruct a, b. Qed.

Lemma mul_opp_l (x y : Float.t) : (- x) * y = - (x * y).
Proof.
  destruct x, y; cbn; rewrite ?negb_xorb_l'; try reflexivity.
  apply binary_round_aux_opp.
Qed.

Lemma mul_opp_r (x y : Float.t) : x * (- y) = - (x * y).
Proof.
  destruct x, y; cbn; rewrite ?negb_xorb_r'; try reflexivity.
  apply binary_round_aux_opp.
Qed.

Lemma div_opp_l (x y : Float.t) : Float.div (- x) y = - Float.div x y.
Proof.
  destruct x, y; cbn; rewrite ?negb_xorb_l'; try reflexivity.
  destruct (SFdiv_core_binary _ _ _ _ _ _) as [[mz ez] lz].
  apply binary_round_aux_opp.
Qed.

Lemma div_opp_r (x y : Float.t) : Float.div x (- y) = - Float.div x y.
Proof.
  destruct x, y; cbn; rewrite ?negb_xorb_r'; try reflexivity.
  destruct (SFdiv_core_binary _ _ _ _ _ _) as [[mz ez] lz].
  apply binary_round_aux_opp.
Qed.

Lemma is_zero_opp (x : Float.t) : Float.is_zero (- x) = Float.is_zero x.
Proof. now destruct x. Qed.

Lemma opp_involutive (x : Float.t) : - - x = x.
Proof. destruct x; cbn; rewrite ?negb_involutive; reflexivity. Qed.

Lemma pow_2_opp (libm_pow : Float.t -> Float.t -> Float.t) (x : Float.t) :
  pow_2 libm_pow (- x) = pow_2 libm_pow x.
Proof. now destruct x. Qed.

Lemma mul_signed (sx sy : bool) (x y : Float.t) :
  nan_or_signed sx x -> nan_or_signed sy y ->
  nan_or_signed (xorb sx sy) (x * y).
Proof.
  destruct x, y; cbn; intros Hx Hy; subst; try reflexivity; try exact I.
  apply binary_round_aux_signed.
Qed.

Lemma div_signed (sx sy : bool) (x y : Float.t) :
  nan_or_signed sx x -> nan_or_signed sy y ->
  nan_or_signed (xorb sx sy) (Float.div x y).
Proof.
  destruct x, y; cbn; intros Hx Hy; subst; try reflexivity; try exact I.
  destruct (SFdiv_core_binary _ _ _ _ _ _) as [[mz ez] lz].
  apply binary_round_aux_signed.
Qed.

(** ** The bulk estimator and signs *)

Section BulkSigns.

Variable libm_pow : Float.t -> Float.t -> Float.t.

Lemma min_bulk_capacitance_flip
    (v_in v_out efficiency i_tr v_tr l_nH : Float.t)
    (s_in s_out s_eff s_i s_v : bool) :
  let flip (s : bool) (x : Float.t) := if s then - x else x in
  get_min_input_bulk_capacitance libm_pow
    (flip s_in v_in) (flip s_out v_out) (flip s_eff efficiency)
    (flip s_i i_tr) (flip s_v v_tr) l_nH
  = get_min_input_bulk_capacitance libm_pow
      v_in v_out efficiency i_tr v_tr l_nH.
Proof.
  intro flip. unfold get_min_input_bulk_capacitance, truediv.
  assert (Hk : Float.is_zero (flip s_in v_in * flip s_eff efficiency)
               = Float.is_zero (v_in * efficiency)).
  { destruct s_in, s_eff; cbn [flip];
      rewrite ?mul_opp_l, ?mul_opp_r, ?is_zero_opp; reflexivity. }
  rewrite Hk. destruct (Float.is_zero (v_in * efficiency)); [reflexivity|].
  cbn [bind].
  assert (Hi : pow_2 libm_pow
                 (Float.div (flip s_out v_out)
                            (flip s_in v_in * flip s_eff efficiency)
                  * flip s_i i_tr)
               = pow_2 libm_pow
                   (Float.div v_out (v_in * efficiency) * i_tr)).
  { destruct s_in, s_out, s_eff, s_i; cbn [flip];
      rewrite ?mul_opp_l, ?mul_opp_r, ?div_opp_l, ?div_opp_r,
        ?mul_opp_l, ?mul_opp_r, ?opp_involutive, ?pow_2_opp,
        ?opp_involutive, ?pow_2_opp;
      reflexivity. }
  rewrite Hi.
  assert (Hv : pow_2 libm_pow (flip s_v v_tr) = pow_2 libm_pow v_tr)
    by (destruct s_v; cbn [flip]; rewrite ?pow_2_opp; reflexivity).
  rewrite Hv. reflexivity.
Qed.

(** X6: whenever the bulk estimator returns, flipping the sign of any of
    input voltage, output voltage, efficiency, transient current or
    allowed voltage change returns the same capacitance: a load release
    (negative step) is sized like a load step, an undershoot limit like
    an overshoot limit. *)
Theorem min_bulk_capacitance_even
    (v_in v_out efficiency i_tr v_tr l_nH : Float.t) (c : ureg.Quantity) :
  get_min_input_bulk_capacitance libm_pow
    v_in v_out efficiency i_tr v_tr l_nH = Ok c ->
  forall s_in s_out s_eff s_i s_v : bool,
    let flip (s : bool) (x : Float.t) := if s then - x else x in
    exists c',
      get_min_input_bulk_capacitance libm_pow
        (flip s_in v_in) (flip s_out v_out) (flip s_eff efficiency)
        (flip s_i i_tr) (flip s_v v_tr) l_nH = Ok c'
      /\ ureg.units c' = ureg.units c
      /\ ureg.magnitude c' = ureg.magnitude c.
Proof.
  intros H s_in s_out s_eff s_i s_v flip. exists c.
  split; [|split; reflexivity].
  unfold flip. rewrite min_bulk_capacitance_flip. exact H.
Qed.

(** X9: both estimators depend on input voltage, output voltage and
    efficiency only through the duty cycle.  Two operating points with
    equal duty cycles get the same ceramic capacitance and the same bulk
    capacitance, all other arguments being equal: whenever an estimator
    returns at the one point, it returns the same magnitude at the
    other. *)
Theorem estimators_depend_on_duty_only
    (v_in v_out efficiency v_in' v_out' efficiency' d d' : Float.t) :
  get_duty_cycle v_in v_out efficiency = Ok d ->
  get_duty_cycle v_in' v_out' efficiency' = Ok d' ->
  d = d' ->
  (forall i_out f_sw V_pp_max c,
      get_min_input_capacitance_for_ripple_reduction
        v_in v_out i_out efficiency f_sw V_pp_max = Ok c ->
      exists c',
        get_min_input_capacitance_for_ripple_reduction
          v_in' v_out' i_out efficiency' f_sw V_pp_max = Ok c'
        /\ ureg.units c' = ureg.units c
        /\ ureg.magnitude c' = ureg.magnitude c)
  /\ (forall i_tr v_tr l_nH c,
         get_min_input_bulk_capacitance libm_pow
           v_in v_out efficiency i_tr v_tr l_nH = Ok c ->
         exists c',
           get_min_input_bulk_capacitance libm_pow
             v_in' v_out' efficiency' i_tr v_tr l_nH = Ok c'
           /\ ureg.units c' = ureg.units c
           /\ ureg.magnitude c' = ureg.magnitude c).
Proof.
  intros Hd Hd' E. subst d'. split.
  - intros i_out f_sw V_pp_max c H. exists c.
    split; [|split; reflexivity]. rewrite <- H.
    unfold get_min_input_capacitance_for_ripple_reduction.
    now rewrite Hd, Hd'.
  - intros i_tr v_tr l_nH c H. exists c.
    split; [|split; reflexivity]. rewrite <- H.
    unfold get_min_input_bulk_capacitance.
    change (truediv v_out' (v_in' * efficiency'))
      with (get_duty_cycle v_in' v_out' efficiency').
    change (truediv v_out (v_in * efficiency))
      with (get_duty_cycle v_in v_out efficiency).
    now rewrite Hd, Hd'.
Qed.

End BulkSigns.

Lemma min_bulk_capacitance_even_witness :
  exists c c',
    get_min_input_bulk_capacitance correctly_rounded_pow
      (f64 24) (f64 5) (f64 0.9) (f64 2) (f64 0.1) (f64 0.1) = Ok c
    /\ get_min_input_bulk_capacitance correctly_rounded_pow
         (f64 24) (f64 5) (f64 0.9) (- f64 2) (- f64 0.1) (f64 0.1) = Ok c'
    /\ ureg.magnitude c' = ureg.magnitude c.
Proof.
  destruct (get_min_input_bulk_capacitance correctly_rounded_pow
              (f64 24) (f64 5) (f64 0.9) (f64 2) (f64 0.1) (f64 0.1))
    as [c|e] eqn:H; [|exfalso; revert H; vm_compute; discriminate].
  destruct (min_bulk_capacitance_even correctly_rounded_pow
              (f64 24) (f64 5) (f64 0.9) (f64 2) (f64 0.1) (f64 0.1) c H
              false false false true true) as [c' [H' [_ M]]].
  exists c, c'. split; [reflexivity|]. split; [exact H' | exact M].
Defined.

Lemma estimators_depend_on_duty_only_witness :
  (exists c c',
      get_min_input_capacitance_for_ripple_reduction
        (f64 24) (f64 6) (f64 2) (f64 1) (f64 500e3) (f64 75e-3) = Ok c
      /\ get_min_input_capacitance_for_ripple_reduction
           (f64 12) (f64 3) (f64 2) (f64 1) (f64 500e3) (f64 75e-3) = Ok c'
      /\ ureg.magnitude c' = ureg.magnitude c)
  /\ (exists c c',
         get_min_input_bulk_capacitance correctly_rounded_pow
           (f64 24) (f64 6) (f64 1) (f64 2) (f64 0.1) (f64 0.1) = Ok c
         /\ get_min_input_bulk_capacitance correctly_rounded_pow
              (f64 12) (f64 3) (f64 1) (f64 2) (f64 0.1) (f64 0.1) = Ok c'
         /\ ureg.magnitude c' = ureg.magnitude c).
Proof.
  assert (Hd : get_duty_cycle (f64 24) (f64 6) (f64 1) = Ok (f64 0.25))
    by (vm_compute; reflexivity).
  assert (Hd' : get_duty_cycle (f64 12) (f64 3) (f64 1) = Ok (f64 0.25))
    by (vm_compute; reflexivity).
  destruct (estimators_depend_on_duty_only correctly_rounded_pow
              (f64 24) (f64 6) (f64 1) (f64 12) (f64 3) (f64 1) _ _
              Hd Hd' eq_refl) as [Hc Hb].
  split.
  - destruct (get_min_input_capacitance_for_ripple_reduction
                (f64 24) (f64 6) (f64 2) (f64 1) (f64 500e3) (f64 75e-3))
      as [c|e] eqn:H; [|exfalso; revert H; vm_compute; discriminate].
    destruct (Hc _ _ _ c H) as [c' [H' [_ M]]].
    exists c, c'. split; [reflexivity|]. split; [exact H' | exact M].
  - destruct (get_min_input_bulk_capacitance correctly_rounded_pow
                (f64 24) (f64 6) (f64 1) (f64 2) (f64 0.1) (f64 0.1))
      as [c|e] eqn:H; [|exfalso; revert H; vm_compute; discriminate].
    destruct (Hb _ _ _ c H) as [c' [H' [_ M]]].
    exists c, c'. split; [reflexivity|]. split; [exact H' | exact M].
Defined.

(** ** Which exceptions the estimators raise *)

Lemma get_duty_cycle_Raise_inv (v_in v_out efficiency : Float.t) (e : exn) :
  get_duty_cycle v_in v_out efficiency = Raise e ->
  e = ZeroDivisionError /\ Float.is_zero (v_in * efficiency) = true.
Proof. apply truediv_Raise_inv. Qed.

Lemma get_duty_cycle_Ok_inv (v_in v_out efficiency d : Float.t) :
  get_duty_cycle v_in v_out efficiency = Ok d ->
  Float.is_zero (v_in * efficiency) = false
  /\ d = Float.div v_out (v_in * efficiency).
Proof. apply truediv_Ok_inv. Qed.

Lemma pow_2_Raise_inv (libm_pow : Float.t -> Float.t -> Float.t)
    (x : Float.t) (e : exn) :
  pow_2 libm_pow x = Raise e -> e = OverflowError.
Proof.
  destruct x as [s|s| |s m e']; cbn [pow_2]; try discriminate.
  destruct (Float.eqb _ _); [discriminate|].
  destruct (Float.is_inf _); [|discriminate]. congruence.
Qed.

Lemma pow_2_zero (libm_pow : Float.t -> Float.t -> Float.t) (x : Float.t) :
  Float.is_zero x = true -> pow_2 libm_pow x = Ok (S754_zero false).
Proof. destruct x; cbn; intro H; try discriminate H; reflexivity. Qed.

Lemma min_ceramic_capacitance_Raise_inv
    (v_in v_out i_out efficiency f_sw V_pp_max : Float.t) (e : exn) :
  get_min_input_capacitance_for_ripple_reduction
    v_in v_out i_out efficiency f_sw V_pp_max = Raise e ->
  e = ZeroDivisionError
  /\ (Float.is_zero (v_in * efficiency) = true
      \/ Float.is_zero (f_sw * V_pp_max) = true).
Proof.
  unfold get_min_input_capacitance_for_ripple_reduction, get_duty_cycle.
  destruct (truediv v_out (v_in * efficiency)) as [d|e1] eqn:E1; cbn [bind].
  - destruct (truediv _ (f_sw * V_pp_max)) as [c|e2] eqn:E2; cbn [bind];
      intro H; [discriminate|].
    injection H as <-. apply truediv_Raise_inv in E2. tauto.
  - intro H. injection H as <-. apply truediv_Raise_inv in E1. tauto.
Qed.

Lemma min_ceramic_capacitance_raises_at_zero
    (v_in v_out i_out efficiency f_sw V_pp_max : Float.t) :
  Float.is_zero (v_in * efficiency) = true
  \/ Float.is_zero (f_sw * V_pp_max) = true ->
  get_min_input_capacitance_for_ripple_reduction
    v_in v_out i_out efficiency f_sw V_pp_max = Raise ZeroDivisionError.
Proof.
  intros H. unfold get_min_input_capacitance_for_ripple_reduction,
    get_duty_cycle, truediv.
  destruct (Float.is_zero (v_in * efficiency)) eqn:E; [reflexivity|].
  cbn [bind]. destruct H as [H|H]; [discriminate H|]. now rewrite H.
Qed.

Section ZeroDenominators.

Variable libm_pow : Float.t -> Float.t -> Float.t.

Lemma min_bulk_capacitance_Raise_inv
    (v_in v_out efficiency i_tr v_tr l_nH : Float.t) (e : exn) :
  get_min_input_bulk_capacitance libm_pow
    v_in v_out efficiency i_tr v_tr l_nH = Raise e ->
  e = ZeroDivisionError \/ e = OverflowError.
Proof.
  unfold get_min_input_bulk_capacitance.
  destruct (truediv v_out (v_in * efficiency)) as [d|e1] eqn:E1; cbn [bind].
  - destruct (pow_2 libm_pow (d * i_tr)) as [i2|e2] eqn:E2; cbn [bind].
    + destruct (pow_2 libm_pow v_tr) as [v2|e3] eqn:E3; cbn [bind].
      * destruct (truediv _ v2) as [c|e4] eqn:E4; cbn [bind];
          intro H; [discriminate|].
        injection H as <-. apply truediv_Raise_inv in E4. tauto.
      * intro H. injection H as <-. apply pow_2_Raise_inv in E3. tauto.
    + intro H. injection H as <-. apply pow_2_Raise_inv in E2. tauto.
  - intro H. injection H as <-. apply truediv_Raise_inv in E1. tauto.
Qed.

Lemma min_bulk_capacitance_zero_product
    (v_in v_out efficiency i_tr v_tr l_nH : Float.t) :
  Float.is_zero (v_in * efficiency) = true ->
  get_min_input_bulk_capacitance libm_pow
    v_in v_out efficiency i_tr v_tr l_nH = Raise ZeroDivisionError.
Proof.
  intro H. unfold get_min_input_bulk_capacitance, truediv.
  now rewrite H.
Qed.

Lemma min_bulk_capacitance_zero_voltage_change
    (v_in v_out efficiency i_tr v_tr l_nH : Float.t) :
  Float.is_zero v_tr = true ->
  (get_min_input_bulk_capacitance libm_pow
     v_in v_out efficiency i_tr v_tr l_nH = Raise ZeroDivisionError
   \/ get_min_input_bulk_capacitance libm_pow
        v_in v_out efficiency i_tr v_tr l_nH = Raise OverflowError)
  /\ (forall d,
         get_duty_cycle v_in v_out efficiency = Ok d ->
         returns (pow_2 libm_pow (d * i_tr)) ->
         get_min_input_bulk_capacitance libm_pow
           v_in v_out efficiency i_tr v_tr l_nH = Raise ZeroDivisionError).
Proof.
  intro Hv. unfold get_min_input_bulk_capacitance, get_duty_cycle.
  rewrite (pow_2_zero libm_pow v_tr Hv).
  destruct (truediv v_out (v_in * efficiency)) as [d|e1] eqn:E1; cbn [bind].
  - destruct (pow_2 libm_pow (d * i_tr)) as [i2|e2] eqn:E2; cbn [bind].
    + split; [now left|]. intros d0 H0 _. reflexivity.
    + pose proof (pow_2_Raise_inv _ _ _ E2) as ->. split; [now right|].
      intros d0 H0 [i2 Hi2]. injection H0 as <-. rewrite E2 in Hi2.
      discriminate Hi2.
  - apply truediv_Raise_inv in E1. destruct E1 as [-> _].
    split; [now left|]. intros d0 H0. discriminate H0.
Qed.

Section MainZero.

Variable given : list (Dest.t * Float.t).

Let args := store_all parser_defaults given.

Lemma main_unfold :
  main libm_pow (Some given)
  = (duty_cycle <-
       get_duty_cycle (Namespace.v_in args) (Namespace.v_out args)
                      (Namespace.efficiency args) ;;
     input_ceramic_c_min <-
       get_min_input_capacitance_for_ripple_reduction
         (Namespace.v_in args) (Namespace.v_out args) (Namespace.i_out args)
         (Namespace.efficiency args) (Namespace.f_sw args)
         (Namespace.v_pp_max args) ;;
     input_bulk_c_min <-
       get_min_input_bulk_capacitance libm_pow
         (Namespace.v_in args) (Namespace.v_out args)
         (Namespace.efficiency args) (Namespace.i_out_tr_max args)
         (Namespace.v_out_tr_max_allowed args)
         (Namespace.input_inductor args) ;;
     Ok (duty_cycle, input_ceramic_c_min, input_bulk_c_min)).
Proof. reflexivity. Qed.

Lemma main_Raise_inv (e : exn) :
  main libm_pow (Some given) = Raise e ->
  e = ZeroDivisionError \/ e = OverflowError.
Proof.
  rewrite main_unfold.
  destruct (get_duty_cycle _ _ _) as [d|e1] eqn:E1; cbn [bind].
  - destruct (get_min_input_capacitance_for_ripple_reduction _ _ _ _ _ _)
      as [c|e2] eqn:E2; cbn [bind].
    + destruct (get_min_input_bulk_capacitance _ _ _ _ _ _ _)
        as [b|e3] eqn:E3; cbn [bind]; intro H; [discriminate|].
      injection H as <-.
      now apply min_bulk_capacitance_Raise_inv in E3.
    + intro H. injection H as <-.
      apply min_ceramic_capacitance_Raise_inv in E2. tauto.
  - intro H. injection H as <-.
    apply get_duty_cycle_Raise_inv in E1. tauto.
Qed.

Lemma main_zero_product :
  Float.is_zero (Namespace.v_in args * Namespace.efficiency args) = true
  \/ Float.is_zero (Namespace.f_sw args * Namespace.v_pp_max args) = true ->
  main libm_pow (Some given) = Raise ZeroDivisionError.
Proof.
  intro H. rewrite main_unfold.
  destruct (get_duty_cycle _ _ _) as [d|e1] eqn:E1; cbn [bind].
  - rewrite min_ceramic_capacitance_raises_at_zero by exact H. reflexivity.
  - apply get_duty_cycle_Raise_inv in E1. now destruct E1 as [-> _].
Qed.

Lemma main_zero_voltage_change :
  Float.is_zero (Namespace.v_out_tr_max_allowed args) = true ->
  main libm_pow (Some given) = Raise ZeroDivisionError
  \/ main libm_pow (Some given) = Raise OverflowError.
Proof.
  intro H. rewrite main_unfold.
  destruct (get_duty_cycle _ _ _) as [d|e1] eqn:E1; cbn [bind].
  - destruct (get_min_input_capacitance_for_ripple_reduction _ _ _ _ _ _)
      as [c|e2] eqn:E2; cbn [bind].
    + destruct (min_bulk_capacitance_zero_voltage_change
                  (Namespace.v_in args) (Namespace.v_out args)
                  (Namespace.efficiency args) (Namespace.i_out_tr_max args)
                  (Namespace.v_out_tr_max_allowed args)
                  (Namespace.input_inductor args) H) as [[E|E] _];
        rewrite E; cbn [bind]; tauto.
    + apply min_ceramic_capacitance_Raise_inv in E2.
      destruct E2 as [-> _]. now left.
  - apply get_duty_cycle_Raise_inv in E1. destruct E1 as [-> _]. now left.
Qed.

End MainZero.

End ZeroDenominators.


Section ZeroDenominatorsRaise.

Variable libm_pow : Float.t -> Float.t -> Float.t.


End ZeroDenominatorsRaise.


(** ** Order and signs *)

Lemma f64_0 : f64 0 = S754_zero false.
Proof. reflexivity. Qed.

Lemma f64_1 : f64 1 = S754_finite false 4503599627370496 (-52).
Proof. vm_compute. reflexivity. Qed.

Lemma f64_1000 : f64 1000 = S754_finite false 8796093022208000 (-43).
Proof. vm_compute. reflexivity. Qed.

Lemma two_pow_pos (e : Z) : (0 < 2 ^ e)%Q.
Proof. now apply Qpower_0_lt. Qed.

Lemma to_Q_negative (m : positive) (e : Z) :
  (Float.to_Q (S754_finite true m e) < 0)%Q.
Proof.
  cbn [Float.to_Q]. pose proof (two_pow_pos e) as Hp.
  assert (Hm : (0 < inject_Z (Zpos m) * 2 ^ e)%Q)
    by (apply Qmult_lt_0_compat; [reflexivity | exact Hp]).
  lra.
Qed.

Lemma to_Q_positive (m : positive) (e : Z) :
  (0 < Float.to_Q (S754_finite false m e))%Q.
Proof.
  cbn [Float.to_Q]. pose proof (two_pow_pos e) as Hp.
  assert (Hm : (0 < inject_Z (Zpos m) * 2 ^ e)%Q)
    by (apply Qmult_lt_0_compat; [reflexivity | exact Hp]).
  lra.
Qed.

(** A float greater than zero is a positive number or plus infinity. *)
Lemma positive_signed (x : Float.t) :
  (f64 0 <? x) = true ->
  nan_or_signed false x /\ Float.is_nan x = false /\ Float.is_zero x = false.
Proof.
  rewrite f64_0. destruct x as [s|s| |s m e]; unfold Float.ltb;
    cbn [Float.compare]; try discriminate.
  - destruct s; [discriminate|]. now repeat split.
  - destruct s; [|now repeat split].
    pose proof (to_Q_negative m e) as Hn.
    change (Float.to_Q (S754_zero false)) with 0%Q.
    apply Qgt_alt in Hn. rewrite Hn. discriminate.
Qed.

Lemma shl_align_value (mx : positive) (ex ez : Z) :
  (ez <= ex)%Z ->
  Zpos (fst (shl_align mx ex ez)) = (Zpos mx * 2 ^ (ex - ez))%Z.
Proof.
  intro H. unfold shl_align.
  destruct (ez - ex)%Z as [|d|d] eqn:E; cbn [fst].
  - replace (ex - ez)%Z with 0%Z by lia. now rewrite Z.mul_1_r.
  - lia.
  - replace (ex - ez)%Z with (Zpos d) by lia.
    rewrite <- Z.shiftl_mul_pow2 by lia. cbn [Z.shiftl].
    now rewrite (Pos.iter_swap_gen _ _ Zpos xO (Z.mul 2)).
Qed.

Lemma binary_normalize_negative (p : positive) (e : Z) :
  nan_or_signed true
    (binary_normalize Float.prec Float.emax (Zneg p) e false).
Proof.
  cbn [binary_normalize]. unfold binary_round.
  destruct (shl_align _ _ _) as [mz ez].
  apply binary_round_aux_signed.
Qed.

(** What [1 - d] is for a [d] greater than one: a negative number, minus
    infinity, or (as far as signs tell) minus zero. *)
Lemma one_minus_signed (d : Float.t) :
  (f64 1 <? d) = true -> nan_or_signed true (f64 1 - d).
Proof.
  rewrite f64_1. destruct d as [s|s| |s m e]; unfold Float.ltb;
    cbn [Float.compare]; try discriminate.
  - destruct s; [discriminate|]. intros _. reflexivity.
  - destruct (Qcompare_spec
                (Float.to_Q (S754_finite false 4503599627370496 (-52)))
                (Float.to_Q (S754_finite s m e))) as [H|H|H];
      try discriminate.
    intros _. destruct s.
    { pose proof (to_Q_negative m e) as Hn.
      pose proof (to_Q_positive 4503599627370496 (-52)) as Hp. lra. }
    unfold Float.sub, SFsub. cbn [cond_Zopp].
    set (ez := Z.min (-52) e).
    rewrite (shl_align_value 4503599627370496 (-52) ez) by (unfold ez; lia).
    rewrite (shl_align_value m e ez) by (unfold ez; lia).
    assert (Hlt : (4503599627370496 * 2 ^ (-52 - ez)
                   < Zpos m * 2 ^ (e - ez))%Z).
    { rewrite Zlt_Qlt, !inject_Z_mult.
      rewrite !Zpower_Qpower by (unfold ez; lia).
      cbn [Float.to_Q] in H.
      assert (H2 : ~ (inject_Z 2 == 0)%Q) by discriminate.
      change (inject_Z 2) with (2 : Q)%Q.
      assert (E1 : (2 ^ (-52 - ez) == 2 ^ (-52) * 2 ^ (- ez))%Q).
      { replace (-52 - ez)%Z with (-52 + - ez)%Z by lia.
        now apply Qpower_plus. }
      assert (E2 : (2 ^ (e - ez) == 2 ^ e * 2 ^ (- ez))%Q).
      { replace (e - ez)%Z with (e + - ez)%Z by lia.
        now apply Qpower_plus. }
      rewrite E1, E2. pose proof (two_pow_pos (- ez)) as Hp.
      rewrite !Qmult_assoc.
      apply Qmult_lt_compat_r; [exact Hp|]. lra. }
    destruct (4503599627370496 * 2 ^ (-52 - ez) - Zpos m * 2 ^ (e - ez))%Z
      as [|p|p] eqn:E; try lia.
    apply binary_normalize_negative.
Qed.




(** * Beyond the stated claims *)

Section Exceptions.

Variable libm_pow : Float.t -> Float.t -> Float.t.

(** X1: the estimators raise nothing but the two arithmetic exceptions.
    [get_duty_cycle] raises only [ZeroDivisionError], and exactly when the
    binary64 product [v_in * efficiency] is zero (a zero factor, or two
    non-zero factors whose product underflows); the ceramic estimator
    raises only [ZeroDivisionError], and exactly when that product or
    [f_sw * V_pp_max] is zero; the bulk estimator raises only
    [ZeroDivisionError] or [OverflowError].  Negative, infinite and NaN
    arguments raise nothing by themselves. *)
Theorem estimators_raise_iff
    (v_in v_out i_out efficiency f_sw V_pp_max
     i_out_tr_max v_out_tr_max_allowed input_inductance_nH : Float.t)
    (e : exn) :
  (get_duty_cycle v_in v_out efficiency = Raise e
   <-> e = ZeroDivisionError /\ Float.is_zero (v_in * efficiency) = true)
  /\ (get_min_input_capacitance_for_ripple_reduction
        v_in v_out i_out efficiency f_sw V_pp_max = Raise e
      <-> e = ZeroDivisionError
          /\ (Float.is_zero (v_in * efficiency) = true
              \/ Float.is_zero (f_sw * V_pp_max) = true))
  /\ (get_min_input_bulk_capacitance libm_pow
        v_in v_out efficiency i_out_tr_max v_out_tr_max_allowed
        input_inductance_nH = Raise e ->
      e = ZeroDivisionError \/ e = OverflowError).
Proof.
  split; [|split]; [split | split |].
  - apply get_duty_cycle_Raise_inv.
  - intros [-> H]. now apply truediv_Raise.
  - apply min_ceramic_capacitance_Raise_inv.
  - intros [-> H]. now apply min_ceramic_capacitance_raises_at_zero.
  - apply min_bulk_capacitance_Raise_inv.
Qed.

Section MainOutcome.

Variable given : list (Dest.t * Float.t).

Let args := store_all parser_defaults given.

(** X11: once the command line is accepted, the program fails only with
    [ZeroDivisionError] or [OverflowError], never with a usage error; it
    fails with [ZeroDivisionError] whenever the parsed
    [v_in * efficiency] or [f_sw * v_pp_max] is zero as a binary64
    product, so that neither is zero when it returns. *)
Theorem main_raises_iff :
  (forall e,
      main libm_pow (Some given) = Raise e ->
      e = ZeroDivisionError \/ e = OverflowError)
  /\ (Float.is_zero (Namespace.v_in args * Namespace.efficiency args) = true
      \/ Float.is_zero (Namespace.f_sw args * Namespace.v_pp_max args) = true
      -> main libm_pow (Some given) = Raise ZeroDivisionError)
  /\ (returns (main libm_pow (Some given)) ->
      Float.is_zero (Namespace.v_in args * Namespace.efficiency args) = false
      /\ Float.is_zero (Namespace.f_sw args * Namespace.v_pp_max args)
         = false).
Proof.
  split; [apply main_Raise_inv|]. split; [apply main_zero_product|].
  intros [r Hr].
  destruct (Float.is_zero (Namespace.v_in args * Namespace.efficiency args))
    eqn:E1.
  { rewrite main_zero_product in Hr by (left; exact E1). discriminate Hr. }
  destruct (Float.is_zero (Namespace.f_sw args * Namespace.v_pp_max args))
    eqn:E2.
  { rewrite main_zero_product in Hr by (right; exact E2). discriminate Hr. }
  now split.
Qed.

(** X12: when the program returns, the three values it prints belong
    together: the duty cycle [d] is the quotient [get_duty_cycle] returns
    for the parsed voltages and efficiency, both capacitances are in
    microfarads, the ceramic one is
    [i_out * d * (1 - d) * 1000 * 1000 / (f_sw * v_pp_max)] and the bulk
    one [1.21 * (d * i_out_tr_max) ** 2 * ((50 + input_inductor) * 1e-9)
    / v_out_tr_max_allowed ** 2 * 1e6], each evaluated left to right in
    binary64 for that same [d]. *)
Theorem main_outputs (d : Float.t) (c b : ureg.Quantity) :
  main libm_pow (Some given) = Ok (d, c, b) ->
  get_duty_cycle (Namespace.v_in args) (Namespace.v_out args)
                 (Namespace.efficiency args) = Ok d
  /\ c = ureg.mkQuantity
           (Float.div (Namespace.i_out args * d * (f64 1 - d)
                         * f64 1000 * f64 1000)
                      (Namespace.f_sw args * Namespace.v_pp_max args))
           ureg.uF
  /\ exists i2 v2,
       pow_2 libm_pow (d * Namespace.i_out_tr_max args) = Ok i2
       /\ pow_2 libm_pow (Namespace.v_out_tr_max_allowed args) = Ok v2
       /\ b = ureg.mkQuantity
                (Float.div
                   (f64 1.21 * i2
                      * ((f64 50 + Namespace.input_inductor args)
                           * f64 1e-9))
                   v2
                 * f64 1e6)
                ureg.uF.
Proof.
  rewrite main_unfold. fold args.
  destruct (get_duty_cycle _ _ _) as [d0|] eqn:E1; cbn [bind];
    [|discriminate].
  unfold get_min_input_capacitance_for_ripple_reduction at 1.
  rewrite E1. cbn [bind].
  destruct (truediv _ (Namespace.f_sw args * Namespace.v_pp_max args))
    as [x|] eqn:E2; cbn [bind]; [|discriminate].
  unfold get_min_input_bulk_capacitance.
  change (truediv (Namespace.v_out args)
                  (Namespace.v_in args * Namespace.efficiency args))
    with (get_duty_cycle (Namespace.v_in args) (Namespace.v_out args)
                         (Namespace.efficiency args)).
  rewrite E1. cbn [bind].
  destruct (pow_2 libm_pow (d0 * Namespace.i_out_tr_max args))
    as [i2|] eqn:E3; cbn [bind]; [|discriminate].
  destruct (pow_2 libm_pow (Namespace.v_out_tr_max_allowed args))
    as [v2|] eqn:E4; cbn [bind]; [|discriminate].
  destruct (truediv _ v2) as [y|] eqn:E5; cbn [bind]; [|discriminate].
  intro H. injection H as <- <- <-.
  apply truediv_Ok_inv in E2, E5. destruct E2 as [_ ->], E5 as [_ ->].
  split; [reflexivity|]. split; [reflexivity|].
  exists i2, v2. repeat split; assumption.
Qed.

End MainOutcome.

End Exceptions.

Lemma main_outputs_witness :
  let d := S754_finite false 8339999309945362 (-55) in
  let c :=
    ureg.mkQuantity (S754_finite false 5341203261770564 (-49)) ureg.uF in
  let b :=
    ureg.mkQuantity (S754_finite false 5851609932502289 (-52)) ureg.uF in
  main correctly_rounded_pow (Some []) = Ok (d, c, b)
  /\ get_duty_cycle (f64 24.0) (f64 5.0) (f64 0.9) = Ok d
  /\ c = ureg.mkQuantity
           (Float.div (f64 2.0 * d * (f64 1 - d) * f64 1000 * f64 1000)
                      (f64 500e3 * f64 75e-3))
           ureg.uF.
Proof.
  intros d c b.
  assert (H : main correctly_rounded_pow (Some []) = Ok (d, c, b))
    by (vm_compute; reflexivity).
  split; [exact H|].
  destruct (main_outputs correctly_rounded_pow [] d c b H) as [H1 [H2 _]].
  split; [exact H1 | exact H2].
Defined.
